(** * F&O stock screener: the filter pipeline of [myapp_v1.2.py]

    A shallow embedding of the Streamlit script: the loader, the date
    window, the numeric range engine, the filter compositor, the link
    transformer, the paginator and the exporter, followed by the
    properties of the pipeline.

    Modelling conventions.
    - A DataFrame is the list of its rows, in row order.  A row carries
      its index label, its parsed ['Trade Date'] and a finite map from
      the other column names to cells; a column name without an entry in
      a row reads as NaN, the way [read_csv] reads an empty field.
    - A float64 is a rational, an infinity or NaN.  The script only
      compares, selects and takes minima and maxima of such values, and
      the order of finite floats is the order of the rationals they
      denote, so no rounding enters.
    - A pandas [Timestamp] is a count of nanoseconds since the epoch, or
      [NaT]; the int64 bounds of pandas timestamps are not modelled.
    - Python exceptions are [None] in the [option] monad.
    - The widgets of Streamlit are functions collected in the record
      [UI]: each receives the arguments of the call (options, bounds,
      default) and returns what the user selected.
    - Parsing of dates and numbers, float formatting and CSV/markdown
      serialisation belong to pandas and are section variables. *)

From Stdlib Require Import ZArith QArith Qminmax String Ascii List Lia.
From stdpp Require Import gmap strings list fin_maps.

Local Open Scope string_scope.
Local Open Scope list_scope.
Local Open Scope Z_scope.

(** ** Values *)

Inductive float64 : Type :=
| Fin (q : Q)
| PInf
| NInf
| NaN.

Inductive cell : Type :=
| CNum (f : float64)
| CStr (s : string).

Inductive Timestamp : Type :=
| NaT
| Ts (ns : Z).

Record Row : Type := mkRow {
  index : nat;
  Trade_Date : Timestamp;
  fields : gmap string cell
}.

(** [df[col]] at one row. *)
Definition get (r : Row) (col : string) : cell :=
  default (CNum NaN) (fields r !! col).

(** [df[col] = f(df[col])], at one row and on the frame. *)
Definition set_cell (col : string) (f : cell -> cell) (r : Row) : Row :=
  mkRow (index r) (Trade_Date r) (<[col := f (get r col)]> (fields r)).

Definition assign (col : string) (f : cell -> cell) (df : list Row) : list Row :=
  map (set_cell col f) df.

(** ** Float comparisons (IEEE: every comparison with NaN is false) *)

Definition Qlt_bool (a b : Q) : bool := negb (Qle_bool b a).

Definition f_gt0 (f : float64) : bool :=
  match f with
  | Fin q => Qlt_bool 0 q
  | PInf => true
  | NInf | NaN => false
  end.

Definition f_lt0 (f : float64) : bool :=
  match f with
  | Fin q => Qlt_bool q 0
  | NInf => true
  | PInf | NaN => false
  end.

Definition f_ge (f : float64) (lo : Q) : bool :=
  match f with
  | Fin q => Qle_bool lo q
  | PInf => true
  | NInf | NaN => false
  end.

Definition f_le (f : float64) (hi : Q) : bool :=
  match f with
  | Fin q => Qle_bool q hi
  | NInf => true
  | PInf | NaN => false
  end.

Definition f_leb (a b : float64) : bool :=
  match a, b with
  | NaN, _ | _, NaN => false
  | NInf, _ => true
  | _, PInf => true
  | Fin x, Fin y => Qle_bool x y
  | _, _ => false
  end.

Definition isnan (f : float64) : bool :=
  match f with NaN => true | _ => false end.


Definition f_eqb (a b : float64) : bool :=
  match a, b with
  | Fin x, Fin y => Qeq_bool x y
  | PInf, PInf | NInf, NInf | NaN, NaN => true
  | _, _ => false
  end.

(** Equality as [Series.isin] and [unique] see it (NaN matches NaN). *)
Definition cell_eqb (a b : cell) : bool :=
  match a, b with
  | CNum x, CNum y => f_eqb x y
  | CStr s, CStr t => if decide (s = t) then true else false
  | _, _ => false
  end.

Definition cell_isna (c : cell) : bool :=
  match c with CNum NaN => true | _ => false end.

(** ** Timestamps *)

Definition ns_per_day : Z := 86400 * 1000000000.

Definition Timedelta_days (d : Z) : Z := d * ns_per_day.
Definition Timedelta_weeks (w : Z) : Z := Timedelta_days (7 * w).

Definition ts_sub (t : Timestamp) (delta : Z) : Timestamp :=
  match t with
  | NaT => NaT
  | Ts n => Ts (n - delta)
  end.

Definition ts_le (a b : Timestamp) : bool :=
  match a, b with
  | Ts x, Ts y => x <=? y
  | _, _ => false
  end.

Definition ts_isna (t : Timestamp) : bool :=
  match t with NaT => true | Ts _ => false end.

(** [Series.max()] and [Series.min()] of a datetime column: NaT is
    skipped, an empty column gives NaT. *)
Definition ts_max2 (a b : Timestamp) : Timestamp :=
  match a, b with
  | NaT, _ => b
  | _, NaT => a
  | Ts x, Ts y => Ts (Z.max x y)
  end.

Definition ts_min2 (a b : Timestamp) : Timestamp :=
  match a, b with
  | NaT, _ => b
  | _, NaT => a
  | Ts x, Ts y => Ts (Z.min x y)
  end.

Definition series_ts_max (l : list Timestamp) : Timestamp := fold_right ts_max2 NaT l.
Definition series_ts_min (l : list Timestamp) : Timestamp := fold_right ts_min2 NaT l.

(** The proleptic Gregorian day number of a civil date (days since
    1970-01-01), used to write timestamps such as 2024-06-10. *)
Definition days_from_civil (y m d : Z) : Z :=
  let y' := if m <=? 2 then y - 1 else y in
  let era := y' / 400 in
  let yoe := y' - era * 400 in
  let mp := if m <=? 2 then m + 9 else m - 3 in
  let doy := (153 * mp + 2) / 5 + d - 1 in
  let doe := yoe * 365 + yoe / 4 - yoe / 100 + doy in
  era * 146097 + doe - 719468.

Definition midnight (y m d : Z) : Timestamp := Ts (days_from_civil y m d * ns_per_day).

(** ** Widgets *)

Inductive DateFilterOption : Type :=
| LatestDate
| Yesterday
| Last1Week
| Last1Month
| CustomDateRange.

Inductive ValueType : Type :=
| All
| OnlyPositive
| OnlyNegative.

Record UI : Type := mkUI {
  (* st.sidebar.radio("Select Date Filter", ...) *)
  date_filter_option : DateFilterOption;
  (* st.sidebar.date_input(label, [min_date, max_date], ...) *)
  date_input : Timestamp -> Timestamp -> Timestamp * Timestamp;
  (* st.sidebar.multiselect(label, options, default) for the display columns *)
  columns_multiselect : list string -> list string -> list string;
  (* st.sidebar.checkbox("Select All Symbols") *)
  select_all : bool;
  (* st.sidebar.multiselect("Select Symbols", symbols, default) *)
  symbols_multiselect : list cell -> list cell -> list cell;
  (* st.sidebar.multiselect("Select Numeric Columns to Apply Filters", ...) *)
  numeric_multiselect : list string -> list string -> list string;
  (* st.sidebar.radio("Filter {col} by Value Type", ..., index=default) *)
  value_filter_radio : string -> ValueType -> ValueType;
  (* st.sidebar.slider("Select Range for {col}", min, max, (min, max)) *)
  range_slider : string -> Q -> Q -> Q * Q -> Q * Q;
  (* st.slider("Scroll Through Data", 1, max, 1) *)
  page_slider : nat -> nat -> nat -> nat
}.

(** ** Boolean masks and boolean indexing *)

(** [df[mask]]: the rows whose mask entry is [True], in order. *)
Fixpoint boolean_index (df : list Row) (mask : list bool) : list Row :=
  match df, mask with
  | r :: df', b :: mask' =>
      if b then r :: boolean_index df' mask' else boolean_index df' mask'
  | _, _ => []
  end.

(** [m1 & m2]. *)
Definition mask_and (m1 m2 : list bool) : list bool := zip_with andb m1 m2.

(** Ordering a [str] against a number raises [TypeError]. *)
Definition as_number (c : cell) : option float64 :=
  match c with
  | CNum f => Some f
  | CStr _ => None
  end.

(** [df[col] <op> x] for an ordering comparison. *)
Definition compare_col (op : float64 -> bool) (col : string) (df : list Row)
  : option (list bool) :=
  mapM (fun r => op <$> as_number (get r col)) df.

(** [df[col].isin(values)]. *)
Definition isin (col : string) (values : list cell) (df : list Row) : list bool :=
  map (fun r => existsb (cell_eqb (get r col)) values) df.

(** ** Loader (lines 8-16) *)

Section Pipeline.

(** Date and number parsing of pandas: [None] when the text does not parse. *)
Variable parse_datetime : string -> option Z.
Variable parse_number : string -> option float64.
(** [str(x)] of a float, as an f-string interpolates it. *)
Variable str_float : float64 -> string.

(** [pd.to_datetime(..., errors='coerce')] on one value. *)
Definition to_datetime_coerce (s : string) : Timestamp :=
  match parse_datetime s with
  | Some ns => Ts ns
  | None => NaT
  end.

(** A CSV record as [read_csv] hands it over: the text of its trade date
    and its other fields.  The frame gets the default RangeIndex. *)
Definition read_row (i : nat) (rec : string * gmap string cell) : Row :=
  mkRow i (to_datetime_coerce rec.1) rec.2.

Definition read_csv (recs : list (string * gmap string cell)) : list Row :=
  imap read_row recs.

(** [df.dropna(subset=['Trade Date'])]. *)
Definition dropna_Trade_Date (df : list Row) : list Row :=
  List.filter (fun r => negb (ts_isna (Trade_Date r))) df.

Definition load (recs : list (string * gmap string cell)) : list Row :=
  dropna_Trade_Date (read_csv recs).

(** ** Date window (lines 18-41) *)

Definition latest_date (df : list Row) : Timestamp := series_ts_max (map Trade_Date df).
Definition yesterday (df : list Row) : Timestamp := ts_sub (latest_date df) (Timedelta_days 1).
Definition last_week (df : list Row) : Timestamp := ts_sub (latest_date df) (Timedelta_weeks 1).
Definition last_month (df : list Row) : Timestamp := ts_sub (latest_date df) (Timedelta_days 30).

Definition date_range (ui : UI) (df : list Row) : Timestamp * Timestamp :=
  match date_filter_option ui with
  | LatestDate => (latest_date df, latest_date df)
  | Yesterday => (yesterday df, latest_date df)
  | Last1Week => (last_week df, latest_date df)
  | Last1Month => (last_month df, latest_date df)
  | CustomDateRange =>
      let min_date := series_ts_min (map Trade_Date df) in
      let max_date := series_ts_max (map Trade_Date df) in
      date_input ui min_date max_date
  end.

(** ** Columns and symbols (lines 43-67) *)

Definition default_columns : list string :=
  [ "Trade Date"; "Ticker Symbol"; "Cum-OI"; "Roll Over %"; "OI Change %";
    "CUMOI CE"; "CUMOI PE"; "Close"; "VWAP"; "Volume"; "AVO"; "CHG%";
    "Change% 22D"; "TTQ%5"; "DQAVG%5"; "ACTION%5"; "Volume_AVG22";
    "DELIV_QTY_AVG22"; "ACTION_AVG22"; "TTQ%22"; "DQAVG%22"; "ACTION%22" ].

Definition available_columns (columns : list string) : list string :=
  List.filter (fun col => bool_decide (col ∈ columns)) default_columns.

(** [Series.unique()]: first occurrences, in order. *)
Fixpoint unique (seen l : list cell) : list cell :=
  match l with
  | [] => []
  | c :: l' =>
      if existsb (cell_eqb c) seen then unique seen l'
      else c :: unique (c :: seen) l'
  end.

Definition symbols (df : list Row) : list cell :=
  unique [] (List.filter (fun c => negb (cell_isna c))
               (map (fun r => get r "Ticker Symbol") df)).

Definition selected_tickers (ui : UI) (df : list Row) : list cell :=
  if select_all ui then symbols df
  else symbols_multiselect ui (symbols df) (take 5 (symbols df)).

(** ** Numeric range engine (lines 69-107) *)

Definition default_numeric_filters : list string :=
  [ "CHG%"; "Change OI"; "Change in OI PE AVO" ].

Definition available_numeric_filters (numeric_columns : list string) : list string :=
  List.filter (fun col => bool_decide (col ∈ numeric_columns)) default_numeric_filters.

(** [pd.to_numeric(x, errors='coerce')] on one value. *)
Definition to_numeric_coerce (c : cell) : cell :=
  match c with
  | CNum f => CNum f
  | CStr s => CNum (default NaN (parse_number s))
  end.

(** [.replace([np.inf, -np.inf], np.nan)] on one value. *)
Definition replace_inf (c : cell) : cell :=
  match c with
  | CNum PInf | CNum NInf => CNum NaN
  | _ => c
  end.

(** The values of a column as floats, for [min()] and [max()]. *)
Definition column (col : string) (df : list Row) : option (list float64) :=
  mapM (fun r => as_number (get r col)) df.

Definition dropna (l : list float64) : list float64 :=
  List.filter (fun f => negb (isnan f)) l.

Definition f_min2 (a b : float64) : float64 := if f_leb b a then b else a.
Definition f_max2 (a b : float64) : float64 := if f_leb a b then b else a.

(** [Series.min()] and [Series.max()] of a NaN-free float column; the
    empty column gives NaN. *)
Definition series_min (l : list float64) : float64 :=
  match l with
  | [] => NaN
  | x :: l' => fold_left f_min2 l' x
  end.

Definition series_max (l : list float64) : float64 :=
  match l with
  | [] => NaN
  | x :: l' => fold_left f_max2 l' x
  end.

(** [filters[col] = v] on a dict in insertion order. *)
Fixpoint dict_set (col : string) (v : Q * Q) (d : list (string * (Q * Q)))
  : list (string * (Q * Q)) :=
  match d with
  | [] => [(col, v)]
  | (k, w) :: d' =>
      if decide (k = col) then (k, v) :: d' else (k, w) :: dict_set col v d'
  end.

Definition default_value_filter (anf : list string) (col : string) : ValueType :=
  if bool_decide (col ∈ anf) then OnlyPositive else All.

(** Lines 96-99: the sign filter replaces the frame. *)
Definition apply_value_filter (value_filter : ValueType) (col : string) (df : list Row)
  : option (list Row) :=
  match value_filter with
  | OnlyPositive => boolean_index df <$> compare_col f_gt0 col df
  | OnlyNegative => boolean_index df <$> compare_col f_lt0 col df
  | All => Some df
  end.

(** Lines 102-107: the slider is created only for finite bounds. *)
Definition offer_range (ui : UI) (col : string) (min_val max_val : float64)
    (filters : list (string * (Q * Q))) : list (string * (Q * Q)) :=
  match min_val, max_val with
  | Fin lo, Fin hi => dict_set col (range_slider ui col lo hi (lo, hi)) filters
  | _, _ => filters
  end.

(** One iteration of the loop over [selected_numeric_columns]; the state
    is the frame [df] and the dict [filters]. *)
Definition engine_step (ui : UI) (anf : list string)
    (st : list Row * list (string * (Q * Q))) (col : string)
  : option (list Row * list (string * (Q * Q))) :=
  let df := assign col to_numeric_coerce st.1 in
  let df := assign col replace_inf df in
  let value_filter := value_filter_radio ui col (default_value_filter anf col) in
  df ← apply_value_filter value_filter col df;
  vals ← column col df;
  let min_val := series_min (dropna vals) in
  let max_val := series_max (dropna vals) in
  Some (df, offer_range ui col min_val max_val st.2).

Fixpoint engine (ui : UI) (anf : list string) (cols : list string)
    (st : list Row * list (string * (Q * Q)))
  : option (list Row * list (string * (Q * Q))) :=
  match cols with
  | [] => Some st
  | col :: cols' => st' ← engine_step ui anf st col; engine ui anf cols' st'
  end.

(** ** Filter compositor (lines 109-117) *)

Definition date_mask (start stop : Timestamp) (df : list Row) : list bool :=
  mask_and (map (fun r => ts_le start (Trade_Date r)) df)
           (map (fun r => ts_le (Trade_Date r) stop) df).

Definition range_mask (col : string) (min_val max_val : Q) (df : list Row)
  : option (list bool) :=
  m1 ← compare_col (fun f => f_ge f min_val) col df;
  m2 ← compare_col (fun f => f_le f max_val) col df;
  Some (mask_and m1 m2).

Fixpoint apply_ranges (filters : list (string * (Q * Q))) (fdf : list Row)
  : option (list Row) :=
  match filters with
  | [] => Some fdf
  | (col, (min_val, max_val)) :: rest =>
      m ← range_mask col min_val max_val fdf;
      apply_ranges rest (boolean_index fdf m)
  end.

(** The frame always has its ['Trade Date'] column (line 15 would have
    raised otherwise), and [pd.to_datetime] leaves a Timestamp as it is. *)
Definition filtered_df (tickers : list cell) (window : Timestamp * Timestamp)
    (filters : list (string * (Q * Q))) (df : list Row) : option (list Row) :=
  let fdf := boolean_index df (isin "Ticker Symbol" tickers df) in
  let fdf := boolean_index fdf (date_mask window.1 window.2 fdf) in
  apply_ranges filters fdf.

(** The loop and the compositor in sequence (lines 80-117): the
    compositor runs on the frame and the dict the loop leaves. *)
Definition screen (ui : UI) (anf : list string) (tickers : list cell)
    (window : Timestamp * Timestamp) (cols : list string) (df : list Row)
  : option (list Row) :=
  st ← engine ui anf cols (df, []);
  filtered_df tickers window st.2 st.1.

(** ** Link transformer (lines 119-123) *)

Definition str_cell (c : cell) : string :=
  match c with
  | CStr s => s
  | CNum f => str_float f
  end.

Definition make_tradingview_link (ticker : string) : string :=
  "[" ++ ticker ++ "](https://www.tradingview.com/chart/?symbol=NSE:" ++ ticker ++ ")".

Definition link_symbols (fdf : list Row) : list Row :=
  assign "Ticker Symbol" (fun c => CStr (make_tradingview_link (str_cell c))) fdf.

(** ** Paginator (lines 125-135) *)

Definition rows_per_page : nat := 10.

(** [df.iloc[start:stop]] for [0 <= start <= stop]. *)
Definition iloc (start stop : nat) (df : list Row) : list Row :=
  take (stop - start) (drop start df).

Definition page_of (page_number : nat) (fdf : list Row) : list Row :=
  let start_row := ((page_number - 1) * rows_per_page)%nat in
  let end_row := (start_row + rows_per_page)%nat in
  iloc start_row end_row fdf.

Definition max_page (num_rows : nat) : nat := (num_rows / rows_per_page + 1)%nat.

Definition filtered_df_paginated (ui : UI) (fdf : list Row) : list Row :=
  let num_rows := length fdf in
  if (rows_per_page <? num_rows)%nat then
    page_of (page_slider ui 1%nat (max_page num_rows) 1%nat) fdf
  else fdf.

(** ** Display and export (lines 137-142) *)

Inductive value : Type :=
| VDate (t : Timestamp)
| VCell (c : cell).

Definition column_value (r : Row) (col : string) : value :=
  if decide (col = "Trade Date") then VDate (Trade_Date r) else VCell (get r col).

(** [df[display_columns]] as a table of values, row by row. *)
Definition project (display_columns : list string) (df : list Row) : list (list value) :=
  map (fun r => map (column_value r) display_columns) df.

(** [DataFrame.to_markdown(index=False)] and [DataFrame.to_csv(index=False)]
    of a table with the given header. *)
Variable to_markdown : list string -> list (list value) -> string.
Variable to_csv : list string -> list (list value) -> string.

Record Output : Type := mkOutput {
  shown : string;
  csv : list Byte.byte
}.

(** ** The script *)

Definition app (ui : UI) (columns numeric_columns : list string)
    (recs : list (string * gmap string cell)) : option Output :=
  let df := load recs in
  let window := date_range ui df in
  let display_columns := columns_multiselect ui columns (available_columns columns) in
  let tickers := selected_tickers ui df in
  let anf := available_numeric_filters numeric_columns in
  let selected_numeric_columns := numeric_multiselect ui numeric_columns anf in
  fdf ← screen ui anf tickers window selected_numeric_columns df;
  let fdf := link_symbols fdf in
  let page := filtered_df_paginated ui fdf in
  Some (mkOutput (to_markdown display_columns (project display_columns page))
                 (list_byte_of_string (to_csv display_columns (project display_columns fdf)))).

End Pipeline.

(** * Vocabulary of the properties *)

(** The definitions below are not part of the script: they are the
    predicates and closed forms in which its properties are stated. *)

(** ** Numeric columns and the composed predicate *)

(** The float a numeric cell holds. *)
Definition float_of (c : cell) : float64 :=
  match c with
  | CNum f => f
  | CStr _ => NaN
  end.

(** Every cell of the column is a number (the column has a float dtype). *)
Definition numeric (col : string) (df : list Row) : Prop :=
  Forall (fun r => exists f, get r col = CNum f) df.

(** The three predicate families, as booleans on a row. *)
Definition in_symbols (tickers : list cell) (r : Row) : bool :=
  existsb (cell_eqb (get r "Ticker Symbol")) tickers.

Definition in_window (window : Timestamp * Timestamp) (r : Row) : bool :=
  ts_le window.1 (Trade_Date r) && ts_le (Trade_Date r) window.2.

Definition in_range (col : string) (lo hi : Q) (r : Row) : bool :=
  f_ge (float_of (get r col)) lo && f_le (float_of (get r col)) hi.

Definition in_ranges (filters : list (string * (Q * Q))) (r : Row) : bool :=
  forallb (fun e => in_range e.1 e.2.1 e.2.2 r) filters.

Definition passes (tickers : list cell) (window : Timestamp * Timestamp)
    (filters : list (string * (Q * Q))) (r : Row) : bool :=
  in_symbols tickers r && in_window window r && in_ranges filters r.




(** [df[col].dropna().min()] and [.max()] on a numeric column. *)
Definition col_min (col : string) (df : list Row) : float64 :=
  series_min (dropna (map (fun r => float_of (get r col)) df)).

Definition col_max (col : string) (df : list Row) : float64 :=
  series_max (dropna (map (fun r => float_of (get r col)) df)).

(** ** The loop in closed form *)

(** The frame and the dict of ranges that the loop leaves, written as
    plain list functions; [engine_closed] shows that [engine] returns
    them. *)

Section EngineModel.

Variable parse_number : string -> option float64.
Variable ui : UI.
Variable anf : list string.

(** Lines 82-83 on one value and on one row. *)
Definition scrub (c : cell) : cell := replace_inf (to_numeric_coerce parse_number c).

Definition coerce (col : string) (r : Row) : Row :=
  set_cell col replace_inf (set_cell col (to_numeric_coerce parse_number) r).

Definition coerce_all (cols : list string) (r : Row) : Row :=
  fold_left (fun r' col => coerce col r') cols r.

(** The sign mode the user chose for a column. *)
Definition chosen (col : string) : ValueType :=
  value_filter_radio ui col (default_value_filter anf col).

Definition sign_ok (value_filter : ValueType) (col : string) (r : Row) : bool :=
  match value_filter with
  | All => true
  | OnlyPositive => f_gt0 (float_of (get r col))
  | OnlyNegative => f_lt0 (float_of (get r col))
  end.

Definition all_signs (cols : list string) (r : Row) : bool :=
  forallb (fun col => sign_ok (chosen col) col r) cols.

(** The frame after one iteration, and after a list of them. *)
Definition working_step (col : string) (df : list Row) : list Row :=
  List.filter (sign_ok (chosen col) col) (map (coerce col) df).

Fixpoint working (cols : list string) (df : list Row) : list Row :=
  match cols with
  | [] => df
  | col :: cols' => working cols' (working_step col df)
  end.

(** The dict [filters] after a list of iterations. *)
Fixpoint offered (cols : list string) (df : list Row) (filters : list (string * (Q * Q)))
  : list (string * (Q * Q)) :=
  match cols with
  | [] => filters
  | col :: cols' =>
      let df' := working_step col df in
      offered cols' df' (offer_range ui col (col_min col df') (col_max col df') filters)
  end.

End EngineModel.


(** The pages the slider offers for a frame of [num_rows] rows. *)
Definition offered_page (num_rows p : nat) : Prop :=
  (1 <= p <= max_page num_rows)%nat.

(** ** A worked dataset *)

(** Seven records, one with an unreadable date, one with an infinite
    and one with a textual ['CHG%'], and parsers that read what occurs
    in them. *)

Definition sample_parse_datetime (s : string) : option Z :=
  if decide (s = "2024-06-10") then Some (days_from_civil 2024 6 10 * ns_per_day)
  else if decide (s = "2024-06-07") then Some (days_from_civil 2024 6 7 * ns_per_day)
  else if decide (s = "2024-06-03") then Some (days_from_civil 2024 6 3 * ns_per_day)
  else if decide (s = "2024-05-02") then Some (days_from_civil 2024 5 2 * ns_per_day)
  else None.

Definition sample_parse_number (s : string) : option float64 :=
  if decide (s = "7") then Some (Fin 7) else None.

Definition sample_record (symbol : string) (chg change_oi : cell) : gmap string cell :=
  <["Ticker Symbol" := CStr symbol]> (<["CHG%" := chg]> (<["Change OI" := change_oi]> ∅)).

Definition sample_recs : list (string * gmap string cell) :=
  [ ("2024-06-10", sample_record "INFY" (CNum (Fin (3 # 2))) (CNum (Fin 4)));
    ("2024-06-07", sample_record "TCS" (CNum (Fin 9)) (CNum (Fin (-2))));
    ("not a date", sample_record "SBIN" (CNum (Fin 1)) (CNum (Fin 1)));
    ("2024-06-03", sample_record "INFY" (CNum PInf) (CNum (Fin 5)));
    ("2024-06-07", sample_record "SBIN" (CNum (Fin (1 # 2))) (CNum (Fin 8)));
    ("2024-05-02", sample_record "TCS" (CNum (Fin 2)) (CNum (Fin 6)));
    ("2024-06-10", sample_record "SBIN" (CStr "7") (CNum (Fin 3))) ].

(** Every widget left at its default, the date filter on the last week. *)
Definition sample_ui : UI :=
  mkUI Last1Week (fun a b => (a, b)) (fun _ d => d) true (fun _ d => d)
       (fun _ d => d) (fun _ d => d) (fun _ _ _ d => d) (fun _ _ d => d).

Definition sample_df : list Row := load sample_parse_datetime sample_recs.

Definition sample_anf : list string :=
  available_numeric_filters ["CHG%"; "Change OI"].

Definition sample_working : list Row :=
  working sample_parse_number sample_ui sample_anf ["CHG%"; "Change OI"] sample_df.

Definition sample_filters : list (string * (Q * Q)) :=
  [ ("CHG%", (1 # 2, 9)%Q); ("Change OI", (3, 8)%Q) ].

Definition sample_tickers : list cell := [ CStr "INFY"; CStr "SBIN" ].

Definition sample_window : Timestamp * Timestamp :=
  (midnight 2024 6 3, midnight 2024 6 10).

(** Twenty-five rows numbered 0 to 24. *)
Definition rows25 : list Row :=
  map (fun i => mkRow i (midnight 2024 6 10) ∅) (seq 0 25).

(** ** Further vocabulary *)

(** The pages the slider can select, in order. *)
Definition all_pages (fdf : list Row) : list (list Row) :=
  map (fun p => page_of p fdf) (seq 1 (max_page (length fdf))).




(** The sample sidebar with the date filter on "Custom Date Range". *)
Definition sample_ui_custom : UI :=
  mkUI CustomDateRange (fun a b => (a, b)) (fun _ d => d) true (fun _ d => d)
       (fun _ d => d) (fun _ d => d) (fun _ _ _ d => d) (fun _ _ d => d).

Definition sample_filters_wide : list (string * (Q * Q)) :=
  [ ("CHG%", (0, 10)%Q); ("Change OI", (3, 8)%Q) ].

Definition sample_tickers_wide : list cell :=
  [ CStr "INFY"; CStr "SBIN"; CStr "TCS" ].

(** A file whose only record has an unreadable date. *)
Definition sample_unreadable : list (string * gmap string cell) :=
  [ ("not a date", sample_record "SBIN" (CNum (Fin 1)) (CNum (Fin 1))) ].

(** * Properties *)

(** ** Masks *)

Lemma boolean_index_map (p : Row -> bool) (df : list Row) :
  boolean_index df (map p df) = List.filter p df.
Proof.
  induction df as [|r df IH]; simpl; [reflexivity|].
  rewrite IH. reflexivity.
Qed.

Lemma mask_and_map (p q : Row -> bool) (df : list Row) :
  mask_and (map p df) (map q df) = map (fun r => p r && q r) df.
Proof.
  unfold mask_and. induction df as [|r df IH]; simpl; [reflexivity|].
  f_equal. exact IH.
Qed.

Lemma boolean_index_sublist (df : list Row) (mask : list bool) :
  boolean_index df mask `sublist_of` df.
Proof.
  revert mask. induction df as [|r df IH]; intros [|b mask]; simpl;
    try apply sublist_nil_l.
  destruct b; [apply sublist_skip | apply sublist_cons]; apply IH.
Qed.


Lemma filter_filter (p q : Row -> bool) (df : list Row) :
  List.filter q (List.filter p df) = List.filter (fun r => p r && q r) df.
Proof.
  induction df as [|r df IH]; simpl; [reflexivity|].
  destruct (p r); simpl; [destruct (q r)|]; rewrite IH; reflexivity.
Qed.


Lemma filter_all (p : Row -> bool) (df : list Row) :
  Forall (fun r => p r = true) df -> List.filter p df = df.
Proof.
  induction 1 as [|r df Hr _ IH]; simpl; [reflexivity|].
  rewrite Hr, IH. reflexivity.
Qed.

Lemma Forall_filter (P : Row -> Prop) (p : Row -> bool) (df : list Row) :
  Forall P df -> Forall P (List.filter p df).
Proof.
  induction 1 as [|r df Hr _ IH]; simpl; [constructor|].
  destruct (p r); [constructor|]; assumption.
Qed.

Lemma Forall_filter_true (p : Row -> bool) (df : list Row) :
  Forall (fun r => p r = true) (List.filter p df).
Proof.
  induction df as [|r df IH]; simpl; [constructor|].
  destruct (p r) eqn:E; [constructor|]; assumption.
Qed.

(** [map f] and [filter] commute when the predicate reads the same on a
    row and on its image. *)
Lemma map_filter_comm (f : Row -> Row) (p p' : Row -> bool) (df : list Row) :
  Forall (fun r => p' (f r) = p r) df ->
  map f (List.filter p df) = List.filter p' (map f df).
Proof.
  induction 1 as [|r df Hr _ IH]; simpl; [reflexivity|].
  rewrite Hr. destruct (p r); simpl; rewrite IH; reflexivity.
Qed.

(** ** Numeric columns *)

Lemma numeric_filter col p df : numeric col df -> numeric col (List.filter p df).
Proof. apply Forall_filter. Qed.

Lemma compare_col_numeric op col df :
  numeric col df ->
  compare_col op col df = Some (map (fun r => op (float_of (get r col))) df).
Proof.
  unfold compare_col. induction 1 as [|r df [f Hf] _ IH]; [reflexivity|].
  cbn [mapM map]. rewrite IH, Hf. reflexivity.
Qed.

Lemma column_numeric col df :
  numeric col df -> column col df = Some (map (fun r => float_of (get r col)) df).
Proof.
  unfold column. induction 1 as [|r df [f Hf] _ IH]; [reflexivity|].
  cbn [mapM map]. rewrite IH, Hf. reflexivity.
Qed.

(** ** The composed predicate *)





Lemma range_mask_numeric col lo hi df :
  numeric col df -> range_mask col lo hi df = Some (map (in_range col lo hi) df).
Proof.
  intros H. unfold range_mask.
  rewrite !compare_col_numeric by assumption. simpl.
  rewrite mask_and_map. reflexivity.
Qed.

Lemma apply_ranges_numeric filters fdf :
  Forall (fun e => numeric e.1 fdf) filters ->
  apply_ranges filters fdf = Some (List.filter (in_ranges filters) fdf).
Proof.
  revert fdf. induction filters as [|[col [lo hi]] rest IH]; intros fdf H.
  - simpl. rewrite filter_all; [reflexivity|]. by apply Forall_forall.
  - inversion H as [|? ? Hc Hrest]; subst. simpl in Hc.
    cbn [apply_ranges]. rewrite range_mask_numeric by assumption. simpl.
    rewrite boolean_index_map, IH.
    + rewrite filter_filter. reflexivity.
    + eapply Forall_impl; [exact Hrest|]. intros e He. by apply numeric_filter.
Qed.

Lemma filtered_df_numeric tickers window filters df :
  Forall (fun e => numeric e.1 df) filters ->
  filtered_df tickers window filters df
  = Some (List.filter (passes tickers window filters) df).
Proof.
  intros H. unfold filtered_df, isin, date_mask.
  rewrite boolean_index_map, mask_and_map, boolean_index_map.
  rewrite apply_ranges_numeric.
  - rewrite !filter_filter. f_equal. apply List.filter_ext. intros r.
    unfold passes, in_symbols, in_window. by rewrite andb_assoc.
  - eapply Forall_impl; [exact H|]. intros e He.
    by apply numeric_filter, numeric_filter.
Qed.


(** C7. Filtering the filtered output again with the same symbols, window
    and ranges changes nothing. *)
Theorem filtered_df_idempotent tickers window filters df :
  Forall (fun e => numeric e.1 df) filters ->
  exists fdf,
    filtered_df tickers window filters df = Some fdf /\
    filtered_df tickers window filters fdf = Some fdf.
Proof.
  intros Hnum. eexists. split; [by apply filtered_df_numeric|].
  rewrite filtered_df_numeric.
  - f_equal. apply filter_all, Forall_filter_true.
  - eapply Forall_impl; [exact Hnum|]. intros e He. by apply numeric_filter.
Qed.

(** ** Minimum and maximum of a column *)



Lemma f_leb_trans a b c : f_leb a b = true -> f_leb b c = true -> f_leb a c = true.
Proof.
  destruct a as [x| | |], b as [y| | |], c as [z| | |]; simpl;
    try reflexivity; try discriminate.
  rewrite !Qle_bool_iff. apply Qle_trans.
Qed.

Lemma f_ge_leb f lo : f_ge f lo = f_leb (Fin lo) f.
Proof. by destruct f. Qed.

Lemma f_le_leb f hi : f_le f hi = f_leb f (Fin hi).
Proof. by destruct f. Qed.













(** ** Coercion of a numeric column *)

Section Engine.

Variable parse_number : string -> option float64.

Lemma get_set_cell_eq col f r : get (set_cell col f r) col = f (get r col).
Proof. unfold get at 1, set_cell. simpl. by rewrite lookup_insert_eq. Qed.

Lemma get_set_cell_ne col c f r : col <> c -> get (set_cell col f r) c = get r c.
Proof. intros H. unfold get, set_cell. simpl. by rewrite lookup_insert_ne. Qed.

Lemma get_coerce_eq col r :
  get (coerce parse_number col r) col = scrub parse_number (get r col).
Proof. unfold coerce, scrub. by rewrite !get_set_cell_eq. Qed.

Lemma get_coerce_ne col c r : col <> c -> get (coerce parse_number col r) c = get r c.
Proof. intros H. unfold coerce. by rewrite !get_set_cell_ne. Qed.

Lemma index_coerce col r : index (coerce parse_number col r) = index r.
Proof. reflexivity. Qed.

Lemma Trade_Date_coerce col r : Trade_Date (coerce parse_number col r) = Trade_Date r.
Proof. reflexivity. Qed.

(** A scrubbed cell is a finite number or NaN. *)
Lemma scrub_cases c :
  (exists q, scrub parse_number c = CNum (Fin q)) \/ scrub parse_number c = CNum NaN.
Proof.
  unfold scrub. destruct c as [[q| | |]|s]; simpl; eauto.
  destruct (parse_number s) as [[q| | |]|]; simpl; eauto.
Qed.

Lemma scrub_idem c : scrub parse_number (scrub parse_number c) = scrub parse_number c.
Proof. destruct (scrub_cases c) as [[q H]|H]; rewrite H; reflexivity. Qed.

Lemma scrub_numeric c : exists f, scrub parse_number c = CNum f.
Proof. destruct (scrub_cases c) as [[q H]|H]; rewrite H; eauto. Qed.

Lemma assign_coerce col df :
  assign col replace_inf (assign col (to_numeric_coerce parse_number) df)
  = map (coerce parse_number col) df.
Proof. unfold assign. by rewrite map_map. Qed.

Lemma numeric_coerce_eq col df : numeric col (map (coerce parse_number col) df).
Proof.
  unfold numeric. rewrite Forall_map. apply Forall_forall. intros r _. simpl.
  rewrite get_coerce_eq. apply scrub_numeric.
Qed.




(** ** The sign filter *)

Variable ui : UI.
Variable anf : list string.

Lemma apply_value_filter_numeric vt col df :
  numeric col df ->
  apply_value_filter vt col df = Some (List.filter (sign_ok vt col) df).
Proof.
  intros H. destruct vt; simpl.
  - symmetry. f_equal. apply filter_all. by apply Forall_forall.
  - rewrite compare_col_numeric by assumption. simpl.
    by rewrite boolean_index_map.
  - rewrite compare_col_numeric by assumption. simpl.
    by rewrite boolean_index_map.
Qed.

Lemma numeric_working_step col df : numeric col (working_step parse_number ui anf col df).
Proof. apply numeric_filter, numeric_coerce_eq. Qed.

Lemma engine_step_closed col df filters :
  engine_step parse_number ui anf (df, filters) col
  = Some (working_step parse_number ui anf col df,
          offer_range ui col (col_min col (working_step parse_number ui anf col df))
            (col_max col (working_step parse_number ui anf col df)) filters).
Proof.
  unfold engine_step. cbn [fst snd]. rewrite assign_coerce.
  rewrite apply_value_filter_numeric by apply numeric_coerce_eq.
  cbn [mbind option_bind]. fold (chosen ui anf col).
  fold (working_step parse_number ui anf col df).
  rewrite column_numeric by apply numeric_working_step.
  reflexivity.
Qed.

Lemma engine_closed cols df filters :
  engine parse_number ui anf cols (df, filters)
  = Some (working parse_number ui anf cols df,
          offered parse_number ui anf cols df filters).
Proof.
  revert df filters. induction cols as [|col cols IH]; intros df filters.
  - reflexivity.
  - cbn [engine]. rewrite engine_step_closed. cbn [mbind option_bind].
    rewrite IH. reflexivity.
Qed.



(** ** The cumulative sign filter *)

(** Later coercions leave an already coerced column as it is. *)
Lemma get_coerce_all cols c r :
  scrub parse_number (get r c) = get r c ->
  get (coerce_all parse_number cols r) c = get r c.
Proof.
  revert r. induction cols as [|a cols IH]; intros r H; [reflexivity|].
  cbn [coerce_all fold_left].
  change (get (coerce_all parse_number cols (coerce parse_number a r)) c = get r c).
  assert (Ha : get (coerce parse_number a r) c = get r c).
  { destruct (decide (a = c)) as [->|Hne].
    - by rewrite get_coerce_eq.
    - by rewrite get_coerce_ne. }
  rewrite IH; rewrite Ha; [reflexivity | exact H].
Qed.

Lemma coerce_all_cons a cols r :
  coerce_all parse_number (a :: cols) r
  = coerce_all parse_number cols (coerce parse_number a r).
Proof. reflexivity. Qed.

Lemma coerce_all_snoc cols a r :
  coerce_all parse_number (cols ++ [a]) r
  = coerce parse_number a (coerce_all parse_number cols r).
Proof. unfold coerce_all. by rewrite fold_left_app. Qed.

(** The frame after the loop is the coerced frame restricted to the
    conjunction of the sign predicates of all processed columns. *)
Lemma working_conj cols df :
  working parse_number ui anf cols df
  = List.filter (all_signs ui anf cols) (map (coerce_all parse_number cols) df).
Proof.
  revert df. induction cols as [|c cols IH]; intros df.
  - simpl. rewrite map_id. symmetry. apply filter_all. by apply Forall_forall.
  - cbn [working]. rewrite IH. unfold working_step.
    rewrite (map_filter_comm (coerce_all parse_number cols) _
               (sign_ok (chosen ui anf c) c)).
    + rewrite filter_filter, map_map. reflexivity.
    + rewrite Forall_map. apply Forall_forall. intros r _. simpl.
      assert (H : get (coerce_all parse_number cols (coerce parse_number c r)) c
                  = get (coerce parse_number c r) c).
      { apply get_coerce_all. rewrite get_coerce_eq. apply scrub_idem. }
      unfold sign_ok. by rewrite H.
Qed.

(** ** The dict of ranges *)






(** ** Ranges left at their default *)








(** ** The range offered for a column *)

Lemma Qlt_bool_iff a b : Qlt_bool a b = true <-> (a < b)%Q.
Proof.
  unfold Qlt_bool. rewrite negb_true_iff. split.
  - intros H. apply Qnot_le_lt. intros Hle. apply Qle_bool_iff in Hle. congruence.
  - intros H. destruct (Qle_bool b a) eqn:E; [|reflexivity].
    apply Qle_bool_iff in E. by apply Qlt_not_le in H.
Qed.





End Engine.

(** ** The date window *)

(** C4. The window of a preset depends on the mode and on the latest trade
    date only: (latest, latest) for the latest date, and latest minus 1, 7
    and 30 days up to latest for yesterday, the last week and the last
    month; with the last week and latest = 2024-06-10 it is
    (2024-06-03, 2024-06-10). *)
Theorem date_range_presets (ui : UI) (df : list Row) :
  let latest := latest_date df in
  match date_filter_option ui with
  | LatestDate => date_range ui df = (latest, latest)
  | Yesterday => date_range ui df = (ts_sub latest (1 * ns_per_day), latest)
  | Last1Week => date_range ui df = (ts_sub latest (7 * ns_per_day), latest)
  | Last1Month => date_range ui df = (ts_sub latest (30 * ns_per_day), latest)
  | CustomDateRange => True
  end /\
  (forall ui' df',
     date_filter_option ui' = date_filter_option ui ->
     date_filter_option ui <> CustomDateRange ->
     latest_date df' = latest ->
     date_range ui' df' = date_range ui df) /\
  (date_filter_option ui = Last1Week ->
   latest = midnight 2024 6 10 ->
   date_range ui df = (midnight 2024 6 3, midnight 2024 6 10)).
Proof.
  intros latest. split; [|split].
  - unfold date_range. destruct (date_filter_option ui); reflexivity.
  - intros ui' df' Hm Hc Hl. subst latest.
    unfold date_range, yesterday, last_week, last_month.
    rewrite Hm, Hl. destruct (date_filter_option ui); congruence.
  - intros Hm Hl. unfold date_range, last_week. rewrite Hm. fold latest.
    rewrite Hl. reflexivity.
Qed.

(** ** Pagination *)

Section Pagination.

Local Open Scope nat_scope.

Lemma page_of_lookup p fdf i :
  page_of p fdf !! i
  = if i <? rows_per_page then fdf !! ((p - 1) * rows_per_page + i) else None.
Proof.
  unfold page_of, iloc.
  replace ((p - 1) * rows_per_page + rows_per_page - (p - 1) * rows_per_page)
    with rows_per_page by lia.
  destruct (Nat.ltb_spec i rows_per_page).
  - rewrite lookup_take_lt by assumption. apply lookup_drop.
  - by apply lookup_take_ge.
Qed.

Lemma page_of_length p fdf :
  1 <= p ->
  length (page_of p fdf)
  = Nat.min (p * rows_per_page) (length fdf)
    - Nat.min ((p - 1) * rows_per_page) (length fdf).
Proof.
  intros Hp. unfold page_of, iloc. rewrite length_take, length_drop.
  unfold rows_per_page. lia.
Qed.

Lemma page_of_nil p fdf :
  1 <= p -> page_of p fdf = [] <-> length fdf <= (p - 1) * rows_per_page.
Proof.
  intros Hp. rewrite <- length_zero_iff_nil, page_of_length by assumption.
  unfold rows_per_page. lia.
Qed.

(** C5. With at most 10 rows the whole frame is the page.  Otherwise the
    slider is offered the pages 1 to count // 10 + 1, and page p is the
    slice from (p-1)*10 up to p*10, cut at the end of the frame; the last
    page offered is empty exactly when the count is a multiple of 10. *)
Theorem pagination (ui : UI) (fdf : list Row) :
  let count := length fdf in
  (count <= 10 -> filtered_df_paginated ui fdf = fdf) /\
  (10 < count ->
     filtered_df_paginated ui fdf
     = page_of (page_slider ui 1 (count / 10 + 1) 1) fdf) /\
  (forall p, 1 <= p ->
     page_of p fdf = take (p * 10 - (p - 1) * 10) (drop ((p - 1) * 10) fdf) /\
     (forall i, page_of p fdf !! i
                = if i <? 10 then fdf !! ((p - 1) * 10 + i) else None) /\
     length (page_of p fdf)
     = Nat.min (p * 10) count - Nat.min ((p - 1) * 10) count) /\
  (10 < count ->
     (page_of (count / 10 + 1) fdf = [] <-> count mod 10 = 0) /\
     forall p, 1 <= p <= count / 10 -> length (page_of p fdf) = 10).
Proof.
  intros count. split; [|split; [|split]].
  - intros H. unfold filtered_df_paginated.
    destruct (Nat.ltb_spec rows_per_page (length fdf)) as [Hlt|_]; [|reflexivity].
    unfold rows_per_page, count in *. lia.
  - intros H. unfold filtered_df_paginated.
    destruct (Nat.ltb_spec rows_per_page (length fdf)) as [_|Hge]; [reflexivity|].
    unfold rows_per_page, count in *. lia.
  - intros p Hp. split; [|split].
    + unfold page_of, iloc, rows_per_page. f_equal. lia.
    + apply page_of_lookup.
    + by apply page_of_length.
  - intros H. split.
    + rewrite page_of_nil by lia. unfold rows_per_page. fold count.
      pose proof (Nat.div_mod_eq count 10).
      pose proof (Nat.mod_upper_bound count 10). lia.
    + intros p Hp. rewrite page_of_length by lia. unfold rows_per_page. fold count.
      pose proof (Nat.div_mod_eq count 10).
      pose proof (Nat.mod_upper_bound count 10). nia.
Qed.

(** C6. For 25 rows, page 1 is rows[0:10], page 2 is rows[10:20] and page 3
    is rows[20:25].  The slider offers the pages 1 to 25 // 10 + 1 = 3, each
    of them non-empty; page 4 is not offered, and the slice its number
    would give is empty. *)
Theorem pages_of_25_rows (fdf : list Row) :
  length fdf = 25 ->
  page_of 1 fdf = take 10 fdf /\
  page_of 2 fdf = take 10 (drop 10 fdf) /\
  page_of 3 fdf = drop 20 fdf /\
  length (page_of 3 fdf) = 5 /\
  max_page (length fdf) = 3 /\
  (forall ui, filtered_df_paginated ui fdf = page_of (page_slider ui 1 3 1) fdf) /\
  (forall p, offered_page (length fdf) p -> page_of p fdf <> []) /\
  ~ offered_page (length fdf) 4 /\
  page_of 4 fdf = [].
Proof.
  intros H.
  assert (Hmax : max_page (length fdf) = 3) by (rewrite H; reflexivity).
  split; [reflexivity|]. split; [reflexivity|].
  split; [|split; [|split; [|split; [|split; [|split]]]]].
  - unfold page_of, iloc. simpl. rewrite take_ge; [reflexivity|].
    rewrite length_drop. lia.
  - rewrite page_of_length, H by lia. reflexivity.
  - exact Hmax.
  - intros ui. unfold filtered_df_paginated. rewrite H. reflexivity.
  - intros p [Hp1 Hp2]. rewrite Hmax in Hp2. rewrite page_of_nil, H by lia.
    unfold rows_per_page. lia.
  - intros [_ Hp]. rewrite Hmax in Hp. lia.
  - apply page_of_nil; [lia|]. rewrite H. unfold rows_per_page. lia.
Qed.

End Pagination.

(** ** Loading, robustness, order and export *)

Lemma sublist_map (f : Row -> Row) (l1 l2 : list Row) :
  l1 `sublist_of` l2 -> map f l1 `sublist_of` map f l2.
Proof. induction 1; simpl; by constructor. Qed.


Lemma string_length_app (s t : string) :
  String.length (s ++ t) = (String.length s + String.length t)%nat.
Proof. induction s as [|a s IH]; simpl; [reflexivity|]. by rewrite IH. Qed.



Lemma apply_ranges_sublist filters fdf out :
  apply_ranges filters fdf = Some out -> out `sublist_of` fdf.
Proof.
  revert fdf. induction filters as [|[col [lo hi]] rest IH]; intros fdf H.
  - simpl in H. by inversion H.
  - cbn [apply_ranges] in H.
    destruct (range_mask col lo hi fdf) as [m|]; [|discriminate]. simpl in H.
    etrans; [by apply IH | apply boolean_index_sublist].
Qed.

Lemma apply_value_filter_sublist vt col df out :
  apply_value_filter vt col df = Some out -> out `sublist_of` df.
Proof.
  destruct vt; simpl.
  - intros H. by inversion H.
  - destruct (compare_col f_gt0 col df); [|discriminate]. simpl.
    intros H. inversion H. apply boolean_index_sublist.
  - destruct (compare_col f_lt0 col df); [|discriminate]. simpl.
    intros H. inversion H. apply boolean_index_sublist.
Qed.

Lemma filtered_df_sublist tickers window filters df out :
  filtered_df tickers window filters df = Some out -> out `sublist_of` df.
Proof.
  unfold filtered_df. intros H. apply apply_ranges_sublist in H.
  etrans; [exact H|]. etrans; apply boolean_index_sublist.
Qed.

Section Robustness.

Variable parse_datetime : string -> option Z.
Variable parse_number : string -> option float64.
Variable str_float : float64 -> string.
Variable to_markdown : list string -> list (list value) -> string.
Variable to_csv : list string -> list (list value) -> string.

Lemma elem_of_read_csv recs r :
  r ∈ read_csv parse_datetime recs <->
  exists i rec, recs !! i = Some rec /\ r = read_row parse_datetime i rec.
Proof.
  unfold read_csv. split.
  - intros H. apply elem_of_lookup_imap_1 in H as (i & rec & -> & Hi). eauto.
  - intros (i & rec & Hi & ->). by apply elem_of_lookup_imap_2.
Qed.

(** The loaded frame holds, in file order and under their record numbers,
    the records whose trade date parses. *)
Lemma elem_of_load recs r :
  r ∈ load parse_datetime recs <->
  exists i rec ns,
    recs !! i = Some rec /\ parse_datetime rec.1 = Some ns /\
    r = mkRow i (Ts ns) rec.2.
Proof.
  unfold load, dropna_Trade_Date.
  rewrite list_elem_of_In, filter_In, <- list_elem_of_In, elem_of_read_csv.
  unfold read_row, to_datetime_coerce. split.
  - intros [(i & rec & Hi & ->) Hd]. simpl in Hd.
    destruct (parse_datetime rec.1) as [ns|] eqn:E; [|discriminate].
    exists i, rec, ns. auto.
  - intros (i & rec & ns & Hi & Hp & ->). split; [|reflexivity].
    exists i, rec. rewrite Hp. auto.
Qed.














End Robustness.

(** * The properties on the worked dataset *)

Example sample_load : map index sample_df = [0; 1; 3; 4; 5; 6]%nat.
Proof. vm_compute. reflexivity. Qed.

Example sample_engine :
  (fun st => (map index st.1, st.2))
    <$> engine sample_parse_number sample_ui sample_anf ["CHG%"; "Change OI"]
          (sample_df, [])
  = Some ([0; 4; 5; 6]%nat, sample_filters).
Proof. vm_compute. reflexivity. Qed.

(** The ranges offered depend on the order of the fields: with
    ['Change OI'] first, the row holding the largest ['CHG%'] is gone
    before the range of ['CHG%'] is taken. *)
Example sample_ranges_depend_on_order :
  offered sample_parse_number sample_ui sample_anf ["CHG%"; "Change OI"] sample_df []
  = [ ("CHG%", (1 # 2, 9)%Q); ("Change OI", (3, 8)%Q) ] /\
  offered sample_parse_number sample_ui sample_anf ["Change OI"; "CHG%"] sample_df []
  = [ ("Change OI", (3, 8)%Q); ("CHG%", (1 # 2, 7)%Q) ].
Proof. split; vm_compute; reflexivity. Qed.

Example sample_screen :
  map index
    <$> screen sample_parse_number sample_ui sample_anf
          (selected_tickers sample_ui sample_df) (date_range sample_ui sample_df)
          ["CHG%"; "Change OI"] sample_df
  = Some [0; 4; 6]%nat.
Proof. vm_compute. reflexivity. Qed.

Lemma sample_numeric :
  Forall (fun e => numeric e.1 sample_working) sample_filters.
Proof.
  vm_compute.
  repeat first [ apply Forall_nil | apply List.Forall_cons
               | (eexists; reflexivity) ].
Defined.


Lemma filtered_df_idempotent_sample :
  Forall (fun e => numeric e.1 sample_working) sample_filters /\
  exists fdf,
    filtered_df sample_tickers sample_window sample_filters sample_working = Some fdf /\
    filtered_df sample_tickers sample_window sample_filters fdf = Some fdf.
Proof.
  split; [exact sample_numeric|].
  exact (filtered_df_idempotent sample_tickers sample_window sample_filters
           sample_working sample_numeric).
Defined.


Lemma date_range_sample :
  date_filter_option sample_ui = Last1Week /\
  latest_date sample_df = midnight 2024 6 10 /\
  date_range sample_ui sample_df = (midnight 2024 6 3, midnight 2024 6 10).
Proof.
  split; [reflexivity|]. split; [vm_compute; reflexivity|].
  apply (date_range_presets sample_ui sample_df); vm_compute; reflexivity.
Defined.

Lemma pagination_sample :
  (10 < length rows25)%nat /\
  filtered_df_paginated sample_ui rows25
  = page_of (page_slider sample_ui 1 (length rows25 / 10 + 1) 1)%nat rows25.
Proof.
  split; [vm_compute; lia|].
  apply (pagination sample_ui rows25). vm_compute. lia.
Defined.

Lemma pages_of_25_rows_sample :
  length rows25 = 25%nat /\
  page_of 3 rows25 = drop 20 rows25 /\
  ~ offered_page (length rows25) 4.
Proof.
  split; [reflexivity|].
  destruct (pages_of_25_rows rows25 eq_refl) as (_ & _ & H3 & _ & _ & _ & _ & H4 & _).
  split; [exact H3 | exact H4].
Defined.

(** With 25 rows the slider stops at page 3: page 4 cannot be requested. *)
Lemma page_4_of_25_rows_not_offered :
  ~ (offered_page (length rows25) 4 /\ page_of 4 rows25 = []).
Proof. intros [[_ H] _]. vm_compute in H. lia. Qed.

(** * Further properties *)

(** ** Pages *)

Lemma concat_pages (k : nat) (fdf : list Row) :
  concat (map (fun p => page_of p fdf) (seq 1 k)) = take (k * rows_per_page) fdf.
Proof.
  induction k as [|k IH]; [reflexivity|].
  rewrite seq_S, map_app, concat_app, IH. cbn [map concat].
  rewrite app_nil_r. unfold page_of, iloc.
  replace (1 + k - 1)%nat with k by lia.
  replace (k * rows_per_page + rows_per_page - k * rows_per_page)%nat
    with rows_per_page by lia.
  rewrite take_take_drop. f_equal. lia.
Qed.

(** X1. The pages the slider offers split the filtered frame: laid end to
    end they give the frame back, so each row is on exactly one page, and
    no page has more than 10 rows. *)
Theorem pages_partition (fdf : list Row) :
  concat (all_pages fdf) = fdf /\
  Forall (fun page => (length page <= rows_per_page)%nat) (all_pages fdf).
Proof.
  split.
  - unfold all_pages. rewrite concat_pages. apply take_ge.
    unfold max_page, rows_per_page.
    pose proof (Nat.div_mod_eq (length fdf) 10).
    pose proof (Nat.mod_upper_bound (length fdf) 10). lia.
  - unfold all_pages. rewrite Forall_map. apply Forall_forall. intros p _.
    unfold page_of, iloc. simpl. rewrite length_take. lia.
Qed.

(** ** Links *)

Lemma string_app_inj (s t x y : string) :
  String.length s = String.length t ->
  (s ++ x)%string = (t ++ y)%string -> s = t /\ x = y.
Proof.
  revert t. induction s as [|a s IH]; intros [|b t] Hlen H; simpl in *;
    try discriminate.
  - auto.
  - injection H as -> H. destruct (IH t) as [-> ->]; [lia | exact H | auto].
Qed.

(** X2. The link determines the symbol: two symbols with the same
    TradingView link are equal, whatever characters they contain. *)
Theorem make_tradingview_link_inj (s t : string) :
  make_tradingview_link s = make_tradingview_link t -> s = t.
Proof.
  intros H.
  assert (Hlen : String.length s = String.length t).
  { apply (f_equal String.length) in H. unfold make_tradingview_link in H.
    rewrite !string_length_app in H. simpl in H. lia. }
  unfold make_tradingview_link in H. simpl in H. injection H as H.
  by destruct (string_app_inj _ _ _ _ Hlen H).
Qed.

(** ** Symbols *)

Lemma f_eqb_refl f : f_eqb f f = true.
Proof. destruct f; simpl; try reflexivity. apply Qeq_bool_refl. Qed.

Lemma cell_eqb_refl c : cell_eqb c c = true.
Proof.
  destruct c as [f|s]; simpl; [apply f_eqb_refl|].
  destruct (decide (s = s)); congruence.
Qed.

Lemma cell_eqb_isna a b : cell_eqb a b = true -> cell_isna a = cell_isna b.
Proof.
  destruct a as [[]|], b as [[]|]; simpl; try discriminate; reflexivity.
Qed.

Lemma unique_sublist seen l : unique seen l `sublist_of` l.
Proof.
  revert seen. induction l as [|c l IH]; intros seen; simpl; [constructor|].
  destruct (existsb (cell_eqb c) seen); [apply sublist_cons | apply sublist_skip];
    apply IH.
Qed.

Lemma unique_covers seen l x :
  x ∈ l ->
  existsb (cell_eqb x) seen = true \/ existsb (cell_eqb x) (unique seen l) = true.
Proof.
  revert seen. induction l as [|c l IH]; intros seen Hx.
  - by apply elem_of_nil in Hx.
  - simpl. destruct (existsb (cell_eqb c) seen) eqn:Hc.
    + apply elem_of_cons in Hx as [->|Hx]; [by left | by apply IH].
    + apply elem_of_cons in Hx as [->|Hx].
      * right. simpl. by rewrite cell_eqb_refl.
      * destruct (IH (c :: seen) Hx) as [H|H].
        -- simpl in H. apply orb_true_iff in H as [H|H].
           ++ right. simpl. by rewrite H.
           ++ by left.
        -- right. simpl. rewrite H. apply orb_true_r.
Qed.

Lemma unique_fresh seen l c :
  c ∈ unique seen l -> existsb (cell_eqb c) seen = false.
Proof.
  revert seen. induction l as [|a l IH]; intros seen Hc; simpl in Hc.
  - by apply elem_of_nil in Hc.
  - destruct (existsb (cell_eqb a) seen) eqn:Ha; [by apply IH|].
    apply elem_of_cons in Hc as [->|Hc]; [exact Ha|].
    apply IH in Hc. simpl in Hc. by apply orb_false_iff in Hc as [_ Hc].
Qed.

Lemma unique_distinct seen l i j a b :
  (i < j)%nat -> unique seen l !! i = Some a -> unique seen l !! j = Some b ->
  cell_eqb b a = false.
Proof.
  revert seen i j. induction l as [|c l IH]; intros seen i j Hij Hi Hj;
    simpl in *; [discriminate|].
  destruct (existsb (cell_eqb c) seen); [by eapply IH|].
  destruct j as [|j]; [lia|]. simpl in Hj. destruct i as [|i].
  - simpl in Hi. injection Hi as ->.
    apply list_elem_of_lookup_2, unique_fresh in Hj. simpl in Hj.
    by apply orb_false_iff in Hj as [Hj _].
  - simpl in Hi. eapply IH; [|exact Hi|exact Hj]. lia.
Qed.

Lemma in_symbols_symbols (df : list Row) (r0 : Row) (c : cell) :
  r0 ∈ df -> get r0 "Ticker Symbol" = c ->
  existsb (cell_eqb c) (symbols df) = negb (cell_isna c).
Proof.
  intros Hr0 Hc.
  unfold symbols.
  set (vals := List.filter (fun c => negb (cell_isna c))
                 (map (fun r => get r "Ticker Symbol") df)).
  destruct (cell_isna c) eqn:Hna; simpl.
  - destruct (existsb _ _) eqn:E; [|reflexivity].
    apply existsb_exists in E as (c' & Hc' & Heq).
    assert (Hin : c' ∈ vals)
      by (eapply elem_of_sublist; [by apply list_elem_of_In | apply unique_sublist]).
    apply list_elem_of_In, filter_In in Hin as [_ Hin].
    apply negb_true_iff in Hin. apply cell_eqb_isna in Heq. congruence.
  - assert (Hin : c ∈ vals).
    { apply list_elem_of_In, filter_In. split.
      - apply in_map_iff. exists r0. split; [exact Hc | by apply list_elem_of_In].
      - by rewrite Hna. }
    destruct (unique_covers [] vals _ Hin) as [H|H]; [discriminate | exact H].
Qed.

(** X3. The list of symbols offered to the user names every ticker of the
    frame once: each entry is the ticker of some row and is not missing,
    no entry equals an earlier one, and every row whose ticker is not
    missing finds its ticker in the list, while a row with a missing
    ticker does not. *)
Theorem symbols_spec (df : list Row) :
  (forall c, c ∈ symbols df ->
     cell_isna c = false /\ exists r, r ∈ df /\ get r "Ticker Symbol" = c) /\
  (forall i j a b, (i < j)%nat ->
     symbols df !! i = Some a -> symbols df !! j = Some b -> cell_eqb b a = false) /\
  (forall r, r ∈ df ->
     in_symbols (symbols df) r = negb (cell_isna (get r "Ticker Symbol"))).
Proof.
  unfold symbols.
  set (col := map (fun r => get r "Ticker Symbol") df).
  set (vals := List.filter (fun c => negb (cell_isna c)) col).
  assert (Hvals : forall c, c ∈ unique [] vals ->
            cell_isna c = false /\ exists r, r ∈ df /\ get r "Ticker Symbol" = c).
  { intros c Hc.
    assert (Hin : c ∈ vals) by (eapply elem_of_sublist; [exact Hc | apply unique_sublist]).
    apply list_elem_of_In, filter_In in Hin as [Hin Hna].
    apply negb_true_iff in Hna. split; [exact Hna|].
    apply in_map_iff in Hin as (r & Hr & Hin). exists r.
    split; [by apply list_elem_of_In | exact Hr]. }
  split; [exact Hvals|]. split.
  - intros i j a b. apply unique_distinct.
  - intros r Hr. unfold in_symbols. by apply (in_symbols_symbols df r).
Qed.

(** ** The loop, column by column *)

Section FurtherEngine.

Variable parse_number : string -> option float64.
Variable ui : UI.
Variable anf : list string.



Lemma Trade_Date_coerce_all cols r :
  Trade_Date (coerce_all parse_number cols r) = Trade_Date r.
Proof.
  revert r. induction cols as [|a cols IH]; intros r; [reflexivity|].
  rewrite coerce_all_cons, IH. reflexivity.
Qed.

Lemma elem_of_working cols df r :
  r ∈ working parse_number ui anf cols df <->
  exists r0, r0 ∈ df /\ r = coerce_all parse_number cols r0 /\
             all_signs ui anf cols r = true.
Proof.
  rewrite working_conj, list_elem_of_In, filter_In, in_map_iff. split.
  - intros [(r0 & <- & Hr0) Hs]. exists r0.
    split; [by apply list_elem_of_In | auto].
  - intros (r0 & Hr0 & -> & Hs). split; [|exact Hs].
    exists r0. split; [reflexivity | by apply list_elem_of_In].
Qed.



(** ** The default sidebar *)




(** ** One range per field *)





(** ** When a slider is created *)






(** ** The three sign modes *)

(** X9. On a coerced field the positive-only and the negative-only filter
    never keep the same row, "All" keeps every row, and the rows that
    neither one-sided mode keeps are those whose value is zero or
    missing. *)
Theorem sign_modes_exclusive (col : string) (df : list Row) :
  let frame := map (coerce parse_number col) df in
  exists pos neg,
    apply_value_filter OnlyPositive col frame = Some pos /\
    apply_value_filter OnlyNegative col frame = Some neg /\
    apply_value_filter All col frame = Some frame /\
    (forall r, r ∈ pos -> r ∉ neg) /\
    (forall r, r ∈ frame ->
       ((r ∉ pos) /\ (r ∉ neg)) <->
       (get r col = CNum NaN \/ exists q, get r col = CNum (Fin q) /\ (q == 0)%Q)).
Proof.
  intros frame.
  assert (Hnum : numeric col frame) by apply numeric_coerce_eq.
  eexists _, _.
  split; [by apply apply_value_filter_numeric|].
  split; [by apply apply_value_filter_numeric|].
  split; [reflexivity|].
  assert (Hcases : forall r, r ∈ frame ->
            get r col = CNum NaN \/ exists q, get r col = CNum (Fin q)).
  { intros r Hr. apply list_elem_of_In, in_map_iff in Hr as (r0 & <- & _).
    rewrite get_coerce_eq.
    destruct (scrub_cases parse_number (get r0 col)) as [[q H]|H]; eauto. }
  split.
  - intros r Hpos Hneg.
    apply list_elem_of_In, filter_In in Hpos as [Hr Hpos].
    apply list_elem_of_In, filter_In in Hneg as [_ Hneg].
    apply list_elem_of_In in Hr. simpl in Hpos, Hneg.
    destruct (Hcases r Hr) as [H|[q H]]; rewrite H in Hpos, Hneg; simpl in *;
      [discriminate|].
    apply Qlt_bool_iff in Hpos, Hneg.
    apply (Qlt_irrefl 0). by eapply Qlt_trans.
  - intros r Hr. rewrite !list_elem_of_In, !filter_In, <- !list_elem_of_In.
    simpl. destruct (Hcases r Hr) as [H|[q H]]; rewrite H; simpl.
    + split; [auto|]. intros _. split; intros [_ ?]; discriminate.
    + split.
      * intros [Hpos Hneg]. right. exists q. split; [reflexivity|].
        apply Qle_antisym.
        -- apply Qnot_lt_le. intros Hlt. apply Hpos. split; [exact Hr|].
           by apply Qlt_bool_iff.
        -- apply Qnot_lt_le. intros Hlt. apply Hneg. split; [exact Hr|].
           by apply Qlt_bool_iff.
      * intros [Hn|(q' & Hq' & Hz)]; [discriminate|]. injection Hq' as <-.
        split; intros [_ Hlt]; apply Qlt_bool_iff in Hlt; rewrite Hz in Hlt;
          by apply Qlt_irrefl in Hlt.
Qed.

(** ** A field in the mode "All" *)



(** ** The sign of the bounds *)



End FurtherEngine.

(** ** The latest date and the window *)

Lemma series_ts_max_ge (l : list Timestamp) (x : Z) :
  Ts x ∈ l -> exists m, series_ts_max l = Ts m /\ x <= m.
Proof.
  induction l as [|a l IH]; intros H; [by apply elem_of_nil in H|].
  cbn [series_ts_max fold_right]. fold (series_ts_max l).
  apply elem_of_cons in H as [<-|H].
  - simpl. destruct (series_ts_max l) as [|y]; eexists; split; try reflexivity; lia.
  - destruct (IH H) as (m & -> & Hm).
    destruct a as [|y]; simpl; eexists; split; try reflexivity; lia.
Qed.

Lemma series_ts_min_le (l : list Timestamp) (x : Z) :
  Ts x ∈ l -> exists m, series_ts_min l = Ts m /\ m <= x.
Proof.
  induction l as [|a l IH]; intros H; [by apply elem_of_nil in H|].
  cbn [series_ts_min fold_right]. fold (series_ts_min l).
  apply elem_of_cons in H as [<-|H].
  - simpl. destruct (series_ts_min l) as [|y]; eexists; split; try reflexivity; lia.
  - destruct (IH H) as (m & -> & Hm).
    destruct a as [|y]; simpl; eexists; split; try reflexivity; lia.
Qed.

Lemma latest_date_ge (df : list Row) (r : Row) (t : Z) :
  r ∈ df -> Trade_Date r = Ts t -> exists m, latest_date df = Ts m /\ t <= m.
Proof.
  intros Hr Ht. apply series_ts_max_ge. rewrite <- Ht.
  apply list_elem_of_In, in_map. by apply list_elem_of_In.
Qed.

Section FurtherWindow.

Variable parse_datetime : string -> option Z.
Variable parse_number : string -> option float64.

Lemma frame_row_dated ui anf cols recs r :
  r ∈ working parse_number ui anf cols (load parse_datetime recs) ->
  exists r0 t, r0 ∈ load parse_datetime recs /\
               Trade_Date r0 = Ts t /\ Trade_Date r = Ts t.
Proof.
  intros Hr. apply elem_of_working in Hr as (r0 & Hr0 & -> & _).
  pose proof Hr0 as Hl. apply elem_of_load in Hl as (i & rec & ns & _ & _ & Hl).
  exists r0, ns. split; [exact Hr0|]. rewrite Trade_Date_coerce_all, Hl. auto.
Qed.

(** X12. With a preset date filter, the upper end of the window never
    removes a row: every row the loop leaves is dated at or before the
    latest date, so the date filter only tests the lower end.  Rows dated
    the latest date always pass, and with "Latest Date" they are the only
    ones that pass. *)
Theorem preset_window_keeps_latest ui anf cols recs :
  date_filter_option ui <> CustomDateRange ->
  let df := load parse_datetime recs in
  let window := date_range ui df in
  forall r, r ∈ working parse_number ui anf cols df ->
    ts_le (Trade_Date r) window.2 = true /\
    in_window window r = ts_le window.1 (Trade_Date r) /\
    (Trade_Date r = latest_date df -> in_window window r = true) /\
    (date_filter_option ui = LatestDate ->
       in_window window r = true <-> Trade_Date r = latest_date df).
Proof.
  intros Hmode df window r Hr.
  destruct (frame_row_dated _ _ _ _ _ Hr) as (r0 & t & Hr0 & Ht0 & Ht).
  destruct (latest_date_ge df r0 t Hr0 Ht0) as (m & Hm & Hle).
  assert (Hw : exists d, 0 <= d /\ window = (Ts (m - d), Ts m) /\
                         (date_filter_option ui = LatestDate -> d = 0)).
  { unfold window, date_range, yesterday, last_week, last_month. rewrite Hm.
    destruct (date_filter_option ui) eqn:E; [| | | |congruence].
    - exists 0. split; [lia|]. split; [|reflexivity].
      simpl. f_equal. f_equal. lia.
    - exists (Timedelta_days 1). split; [vm_compute; discriminate|].
      split; [reflexivity | discriminate].
    - exists (Timedelta_weeks 1). split; [vm_compute; discriminate|].
      split; [reflexivity | discriminate].
    - exists (Timedelta_days 30). split; [vm_compute; discriminate|].
      split; [reflexivity | discriminate]. }
  destruct Hw as (d & Hd & Hw & Hlatest). rewrite Hw, Hm.
  unfold in_window. cbn [fst snd]. rewrite Ht. cbn [ts_le].
  assert (Hup : (t <=? m) = true) by (apply Z.leb_le; lia).
  rewrite Hup. split; [reflexivity|]. split; [apply andb_true_r|]. split.
  - intros Heq. injection Heq as ->. rewrite andb_true_r. apply Z.leb_le. lia.
  - intros Hl. rewrite (Hlatest Hl), andb_true_r, Z.leb_le. split.
    + intros H. f_equal. lia.
    + intros Heq. injection Heq as ->. lia.
Qed.

(** X13. With "Custom Date Range", a date picker that returns the bounds it
    was given (the earliest and the latest trade date) lets every row
    through the date filter. *)
Theorem custom_default_window_keeps_all ui anf cols recs :
  date_filter_option ui = CustomDateRange ->
  (forall lo hi, date_input ui lo hi = (lo, hi)) ->
  let df := load parse_datetime recs in
  forall r, r ∈ working parse_number ui anf cols df ->
    in_window (date_range ui df) r = true.
Proof.
  intros Hmode Hdef df r Hr.
  destruct (frame_row_dated _ _ _ _ _ Hr) as (r0 & t & Hr0 & Ht0 & Ht).
  assert (Hin : Ts t ∈ map Trade_Date df).
  { rewrite <- Ht0. apply list_elem_of_In, in_map. by apply list_elem_of_In. }
  destruct (series_ts_max_ge _ _ Hin) as (hi & Hhi & Hle).
  destruct (series_ts_min_le _ _ Hin) as (lo & Hlo & Hge).
  unfold date_range. rewrite Hmode, Hdef. fold df. rewrite Hhi, Hlo.
  unfold in_window. cbn [fst snd]. rewrite Ht. cbn [ts_le].
  apply andb_true_iff. split; apply Z.leb_le; lia.
Qed.

End FurtherWindow.

(** ** Order and width of the filters *)

Lemma filter_sublist_impl (p q : Row -> bool) (df : list Row) :
  (forall r, r ∈ df -> p r = true -> q r = true) ->
  List.filter p df `sublist_of` List.filter q df.
Proof.
  induction df as [|r df IH]; intros H; simpl; [constructor|].
  assert (IH' : List.filter p df `sublist_of` List.filter q df).
  { apply IH. intros r' Hr'. apply H. by right. }
  destruct (p r) eqn:Hp.
  - rewrite (H r) by (left || assumption). by apply sublist_skip.
  - destruct (q r); [by apply sublist_cons | exact IH'].
Qed.

Lemma in_ranges_Permutation filters filters' r :
  filters ≡ₚ filters' -> in_ranges filters r = in_ranges filters' r.
Proof.
  unfold in_ranges. induction 1 as [|e l l' _ IH|e e' l|l l' l'' _ IH1 _ IH2]; simpl.
  - reflexivity.
  - by rewrite IH.
  - rewrite !andb_assoc. f_equal. apply andb_comm.
  - by rewrite IH1.
Qed.

(** X14. The compositor does not depend on the order of the ranges in the
    dict: any reordering of the same ranges selects the same rows. *)
Theorem filtered_df_ranges_any_order tickers window filters filters' df :
  Forall (fun e => numeric e.1 df) filters ->
  filters ≡ₚ filters' ->
  filtered_df tickers window filters' df = filtered_df tickers window filters df.
Proof.
  intros Hnum Hperm.
  assert (Hnum' : Forall (fun e => numeric e.1 df) filters')
    by (by rewrite <- Hperm).
  rewrite !filtered_df_numeric by assumption. f_equal.
  apply List.filter_ext. intros r. unfold passes.
  by rewrite (in_ranges_Permutation filters filters').
Qed.

Lemma ts_le_trans a b c : ts_le a b = true -> ts_le b c = true -> ts_le a c = true.
Proof.
  destruct a, b, c; simpl; try discriminate. rewrite !Z.leb_le. lia.
Qed.

(** A dict with the same fields and wider (or equal) ranges. *)
Lemma in_ranges_wider filters filters' r :
  Forall2 (fun e e' => e.1 = e'.1 /\ (e'.2.1 <= e.2.1)%Q /\ (e.2.2 <= e'.2.2)%Q)
    filters filters' ->
  in_ranges filters r = true -> in_ranges filters' r = true.
Proof.
  unfold in_ranges. induction 1 as [|e e' l l' (Hk & Hlo & Hhi) _ IH]; simpl;
    [reflexivity|].
  rewrite !andb_true_iff. intros [He Hl]. split; [|by apply IH].
  unfold in_range in *. rewrite <- Hk. apply andb_true_iff in He as [H1 H2].
  rewrite f_ge_leb in *. rewrite f_le_leb in *.
  apply andb_true_iff. split.
  - eapply f_leb_trans; [|exact H1]. simpl. by apply Qle_bool_iff.
  - eapply f_leb_trans; [exact H2|]. simpl. by apply Qle_bool_iff.
Qed.

(** X15. Widening the selection never loses a row: with more symbols
    selected, a window that starts no later and ends no earlier, and the
    same fields with ranges at least as wide, the rows selected before are
    a subsequence of the rows selected now. *)
Theorem filtered_df_monotone tickers tickers' window window' filters filters' df :
  Forall (fun e => numeric e.1 df) filters ->
  (forall c, c ∈ tickers -> c ∈ tickers') ->
  ts_le window'.1 window.1 = true ->
  ts_le window.2 window'.2 = true ->
  Forall2 (fun e e' => e.1 = e'.1 /\ (e'.2.1 <= e.2.1)%Q /\ (e.2.2 <= e'.2.2)%Q)
    filters filters' ->
  exists fdf fdf',
    filtered_df tickers window filters df = Some fdf /\
    filtered_df tickers' window' filters' df = Some fdf' /\
    fdf `sublist_of` fdf'.
Proof.
  intros Hnum Hsub Hlo Hhi Hwide.
  assert (Hnum' : Forall (fun e => numeric e.1 df) filters').
  { clear -Hnum Hwide. induction Hwide as [|e e' l l' (Hk & _) _ IH];
      [constructor|].
    inversion Hnum; subst. constructor; [by rewrite <- Hk | by apply IH]. }
  eexists _, _. rewrite !filtered_df_numeric by assumption.
  split; [reflexivity|]. split; [reflexivity|].
  apply filter_sublist_impl. intros r _. unfold passes.
  rewrite !andb_true_iff. intros [[Hs Hw] Hr]. split; [split|].
  - unfold in_symbols in *. apply existsb_exists in Hs as (c & Hc & Heq).
    apply existsb_exists. exists c. split; [|exact Heq].
    by apply list_elem_of_In, Hsub, list_elem_of_In.
  - unfold in_window in *. apply andb_true_iff in Hw as [H1 H2].
    apply andb_true_iff. split; eapply ts_le_trans; eauto.
  - by apply (in_ranges_wider filters filters').
Qed.

(** ** The whole script *)


Section FurtherScript.

Variable parse_datetime : string -> option Z.
Variable parse_number : string -> option float64.
Variable str_float : float64 -> string.
Variable to_markdown : list string -> list (list value) -> string.
Variable to_csv : list string -> list (list value) -> string.


Lemma working_nil ui anf cols : working parse_number ui anf cols [] = [].
Proof. induction cols as [|c cols IH]; [reflexivity | exact IH]. Qed.

Lemma offered_nil ui anf cols filters :
  offered parse_number ui anf cols [] filters = filters.
Proof.
  revert filters. induction cols as [|c cols IH]; intros filters; [reflexivity|].
  cbn [offered]. unfold working_step. simpl. apply IH.
Qed.

(** X17. A file in which no trade date parses is not an error: with a
    preset date filter the frame is empty, the window is (NaT, NaT), the
    loop records no range, and the script shows and exports a table
    without rows. *)
Theorem nothing_loaded ui columns numeric_columns recs :
  Forall (fun rec => parse_datetime rec.1 = None) recs ->
  date_filter_option ui <> CustomDateRange ->
  let display_columns := columns_multiselect ui columns (available_columns columns) in
  let df := load parse_datetime recs in
  df = [] /\
  date_range ui df = (NaT, NaT) /\
  (forall anf cols, engine parse_number ui anf cols (df, []) = Some ([], [])) /\
  app parse_datetime parse_number str_float to_markdown to_csv
      ui columns numeric_columns recs
  = Some (mkOutput (to_markdown display_columns [])
                   (list_byte_of_string (to_csv display_columns []))).
Proof.
  intros Hnone Hmode display_columns df.
  assert (Hdf : df = []).
  { destruct df as [|r df'] eqn:E; [reflexivity|]. exfalso.
    assert (Hr : r ∈ load parse_datetime recs) by (fold df; rewrite E; left).
    apply elem_of_load in Hr as (i & rec & ns & Hi & Hp & _).
    rewrite Forall_forall in Hnone.
    apply list_elem_of_lookup_2, Hnone in Hi. congruence. }
  split; [exact Hdf|]. split; [|split].
  - rewrite Hdf. unfold date_range.
    destruct (date_filter_option ui); try reflexivity. congruence.
  - intros anf cols. rewrite Hdf, engine_closed, working_nil, offered_nil.
    reflexivity.
  - unfold app. fold df. rewrite Hdf. unfold screen.
    rewrite engine_closed, working_nil, offered_nil. reflexivity.
Qed.

End FurtherScript.

(** ** The defaults of the multiselects *)



(** * The further properties on the worked dataset *)

Lemma make_tradingview_link_inj_sample :
  make_tradingview_link "INFY" = make_tradingview_link "INFY" /\ "INFY" = "INFY".
Proof.
  split; [reflexivity|].
  apply (make_tradingview_link_inj "INFY" "INFY"). reflexivity.
Defined.




Lemma preset_window_sample :
  date_filter_option sample_ui <> CustomDateRange /\
  forall r,
    r ∈ working sample_parse_number sample_ui sample_anf ["CHG%"] sample_df ->
    ts_le (Trade_Date r) (date_range sample_ui sample_df).2 = true.
Proof.
  assert (H : date_filter_option sample_ui <> CustomDateRange) by discriminate.
  split; [exact H|]. intros r Hr.
  exact (proj1 (preset_window_keeps_latest sample_parse_datetime sample_parse_number
                  sample_ui sample_anf ["CHG%"] sample_recs H r Hr)).
Defined.

Lemma custom_default_window_sample :
  date_filter_option sample_ui_custom = CustomDateRange /\
  (forall lo hi, date_input sample_ui_custom lo hi = (lo, hi)) /\
  forall r,
    r ∈ working sample_parse_number sample_ui_custom sample_anf ["CHG%"] sample_df ->
    in_window (date_range sample_ui_custom sample_df) r = true.
Proof.
  split; [reflexivity|]. split; [reflexivity|].
  apply (custom_default_window_keeps_all sample_parse_datetime sample_parse_number
           sample_ui_custom sample_anf ["CHG%"] sample_recs); reflexivity.
Defined.

Lemma ranges_any_order_sample :
  Forall (fun e => numeric e.1 sample_working) sample_filters /\
  sample_filters ≡ₚ rev sample_filters /\
  filtered_df sample_tickers sample_window (rev sample_filters) sample_working
  = filtered_df sample_tickers sample_window sample_filters sample_working.
Proof.
  assert (H : sample_filters ≡ₚ rev sample_filters) by apply perm_swap.
  split; [exact sample_numeric|]. split; [exact H|].
  exact (filtered_df_ranges_any_order sample_tickers sample_window sample_filters
           (rev sample_filters) sample_working sample_numeric H).
Defined.

Lemma monotone_sample :
  (forall c, c ∈ sample_tickers -> c ∈ sample_tickers_wide) /\
  exists fdf fdf',
    filtered_df sample_tickers sample_window sample_filters sample_working = Some fdf /\
    filtered_df sample_tickers_wide sample_window sample_filters_wide sample_working
    = Some fdf' /\
    fdf `sublist_of` fdf'.
Proof.
  assert (H : forall c, c ∈ sample_tickers -> c ∈ sample_tickers_wide).
  { intros c Hc. unfold sample_tickers, sample_tickers_wide in *.
    apply elem_of_cons in Hc as [->|Hc]; [left|].
    apply list_elem_of_singleton in Hc as ->. right. left. }
  split; [exact H|].
  apply (filtered_df_monotone sample_tickers sample_tickers_wide sample_window
           sample_window sample_filters sample_filters_wide sample_working
           sample_numeric H); [reflexivity | reflexivity |].
  repeat constructor; simpl; try reflexivity; unfold Qle; simpl; lia.
Defined.

Lemma nothing_loaded_sample :
  Forall (fun rec => sample_parse_datetime rec.1 = None) sample_unreadable /\
  load sample_parse_datetime sample_unreadable = [].
Proof.
  assert (H : Forall (fun rec => sample_parse_datetime rec.1 = None) sample_unreadable)
    by (repeat constructor).
  split; [exact H|].
  assert (Hm : date_filter_option sample_ui <> CustomDateRange) by discriminate.
  exact (proj1 (nothing_loaded sample_parse_datetime sample_parse_number
                  (fun _ => "") (fun _ _ => "") (fun _ _ => "")
                  sample_ui [] [] sample_unreadable H Hm)).
Defined.
